(** * SDG 6 clean-water pipeline ([combiner.py]): model and properties

    The script is a PySpark batch job.  Its logic is a handful of column
    expressions evaluated by the dataframe engine, followed by a Python
    loop that builds a GeoJSON document and a few file writes.

    Modelling conventions.
    - An SQL value of type [A] is an [option A]; [None] is SQL NULL.
    - An [int] column holds a [Z]; the [bigint] sums are kept as the
      mathematical sum (a 64-bit sum of 32-bit values is exact for any
      table of fewer than 2^32 rows).
    - A [double] is modelled by the rational number it denotes, kept in
      lowest terms so that equal numbers are equal terms.  Binary64
      rounding error, NaN and the infinities are outside the model; the
      concrete numbers used in the examples below are all exactly
      representable in binary64 (section [Binary64] checks the arithmetic
      on machine floats).
    - The engine's casts and its CSV reader are parameters of the model.
    - Row order: [collect] returns the rows in input order and the groups
      of [groupBy] are listed by first occurrence. *)

From Stdlib Require Import ZArith QArith Qround String List Bool Lia Lqa Floats.
From stdpp Require Import gmap strings.
Import ListNotations.

Local Open Scope Z_scope.

(** ** Doubles *)

Definition double : Type := Q.

Bind Scope Q_scope with double.

Definition of_int (z : Z) : double := inject_Z z.
Definition ddiv (a b : double) : double := Qred (a / b).
Definition dmul (a b : double) : double := Qred (a * b).
Definition dge (a b : double) : bool := Qle_bool b a.

Definition pow10 (d : nat) : Q := inject_Z (10 ^ Z.of_nat d).

(** Nearest integer, a tie going away from zero (Java's
    [RoundingMode.HALF_UP], which the engine's [round] uses). *)
Definition round_half_up (y : Q) : Z :=
  if Qle_bool 0 y then Qfloor (y + (1 # 2)) else - Qfloor (- y + (1 # 2)).

(** Nearest integer, a tie going to the even neighbour (Python 3's
    built-in [round] on a float). *)
Definition round_half_even (y : Q) : Z :=
  let f := Qfloor y in
  match (y - inject_Z f ?= 1 # 2)%Q with
  | Lt => f
  | Gt => f + 1
  | Eq => if Z.even f then f else f + 1
  end.

(** [pyspark.sql.functions.round(col, d)] on a non-null double. *)
Definition sround (x : double) (d : nat) : double :=
  Qred (inject_Z (round_half_up (x * pow10 d)) / pow10 d).

(** Python's [round(x, d)] on a float. *)
Definition float_round (x : double) (d : nat) : double :=
  Qred (inject_Z (round_half_even (x * pow10 d)) / pow10 d).

(** ** SQL column expressions with NULL *)

Definition lit {A} (v : A) : option A := Some v.

(** [a > b] on int columns. *)
Definition sql_gt (a b : option Z) : option bool :=
  match a, b with
  | Some x, Some y => Some (y <? x)
  | _, _ => None
  end.

(** [a >= b] with a double column on the left and an int on the right
    (the int is widened to double). *)
Definition sql_ge (a : option double) (b : option Z) : option bool :=
  match a, b with
  | Some x, Some y => Some (dge x (of_int y))
  | _, _ => None
  end.

(** [a / b] on int columns: both sides are widened to double, the result
    is NULL when a side is NULL or the divisor is zero. *)
Definition sql_div (a b : option Z) : option double :=
  match a, b with
  | Some x, Some y => if y =? 0 then None else Some (ddiv (of_int x) (of_int y))
  | _, _ => None
  end.

(** [a * b] with a double on the left and an int on the right. *)
Definition sql_mul (a : option double) (b : option Z) : option double :=
  match a, b with
  | Some x, Some y => Some (dmul x (of_int y))
  | _, _ => None
  end.

(** [round(a, d)] on a double column. *)
Definition sql_round (a : option double) (d : nat) : option double :=
  match a with
  | Some x => Some (sround x d)
  | None => None
  end.

(** [when(c, v)], [.when(c, v)] and [.otherwise(e)]: the branches are
    tried in order, a branch is taken when its condition is TRUE (neither
    FALSE nor NULL). *)
Definition case_when (A : Type) : Type := list (option bool * option A).

Definition when_ {A} (c : option bool) (v : option A) : case_when A := [(c, v)].

Definition and_when {A} (w : case_when A) (c : option bool) (v : option A)
  : case_when A := w ++ [(c, v)].

Fixpoint otherwise {A} (w : case_when A) (e : option A) : option A :=
  match w with
  | [] => e
  | (Some true, v) :: _ => v
  | _ :: w' => otherwise w' e
  end.

(** ** Data model *)

Definition text : Type := option string.

(** The dataframe after the metrics have been added (lines 19-37). *)
Record record : Type := mkRecord {
  Village : text;
  District : text;
  State : text;
  TotalHouseholds : option Z;
  CleanWaterHH : option Z;
  Lat : option double;
  Lon : option double;
  PercentAccess : option double;
  AccessLevel : text
}.

(** [PercentAccess] (lines 32-33), from the two int columns. *)
Definition PercentAccess_col (total clean : option Z) : option double :=
  otherwise
    (when_ (sql_gt total (lit 0)) (sql_mul (sql_div clean total) (lit 100)))
    (Some (of_int 0)).

(** [AccessLevel] (lines 34-37), from the [PercentAccess] column. *)
Definition AccessLevel_col (pct : option double) : text :=
  otherwise
    (and_when (when_ (sql_ge pct (lit 75)) (lit "High"%string))
              (sql_ge pct (lit 40)) (lit "Medium"%string))
    (lit "Low"%string).

Section Transformer.

(** The engine's side: the type of a cell as the CSV reader delivers it
    and the two casts.  A cast gives [None] for a NULL cell and for a
    value it can not convert. *)
Variable cell : Type.
Variable cast_int : cell -> option Z.
Variable cast_double : cell -> option double.

(** A row of the input file, under the header's column names. *)
Record csv_row : Type := mkCsvRow {
  village_name : text;
  district : text;
  state : text;
  total_households : cell;
  households_with_clean_water : cell;
  latitude : cell;
  longitude : cell
}.

(** Lines 19-37: rename, cast, then the two derived columns. *)
Definition transform (r : csv_row) : record :=
  let total := cast_int (total_households r) in
  let clean := cast_int (households_with_clean_water r) in
  let pct := PercentAccess_col total clean in
  {| Village := village_name r;
     District := district r;
     State := state r;
     TotalHouseholds := total;
     CleanWaterHH := clean;
     Lat := cast_double (latitude r);
     Lon := cast_double (longitude r);
     PercentAccess := pct;
     AccessLevel := AccessLevel_col pct |}.

End Transformer.

Arguments mkCsvRow {cell}.
Arguments village_name {cell}.
Arguments district {cell}.
Arguments state {cell}.
Arguments total_households {cell}.
Arguments households_with_clean_water {cell}.
Arguments latitude {cell}.
Arguments longitude {cell}.
Arguments transform {cell}.

(** ** Aggregator (lines 40-46) *)

Definition group_key : Type := text * text.

Definition key_of (r : record) : group_key := (State r, District r).

(** One step of SQL [sum]: a NULL input is skipped, and the sum stays
    NULL until the first non-NULL input. *)
Definition sum_step (acc v : option Z) : option Z :=
  match v with
  | None => acc
  | Some x => Some (match acc with Some a => a + x | None => x end)
  end.

Definition groups : Type := list (group_key * (option Z * option Z)).

(** Feed one row to the group of its key, opening the group if needed. *)
Fixpoint add_to_group (k : group_key) (t c : option Z) (gs : groups) : groups :=
  match gs with
  | [] => [(k, (sum_step None t, sum_step None c))]
  | (k', (st, sc)) :: gs' =>
      if decide (k = k')
      then (k', (sum_step st t, sum_step sc c)) :: gs'
      else (k', (st, sc)) :: add_to_group k t c gs'
  end.

(** One row enters the aggregation with its key and its two counts. *)
Definition agg_step (gs : groups) (r : record) : groups :=
  add_to_group (key_of r) (TotalHouseholds r) (CleanWaterHH r) gs.

(** [df.groupBy("State","District").agg(sum(TotalHouseholds),
    sum(CleanWaterHH))]. *)
Definition groupBy_agg (df : list record) : groups :=
  fold_left agg_step df [].

Module Summary.
(** A row of the district summary. *)
Record row : Type := mk {
  State : text;
  District : text;
  TotalHouseholds : option Z;
  CleanWaterHH : option Z;
  PercentAccess : option double
}.
End Summary.

(** The summary's [PercentAccess] (lines 44-46). *)
Definition summary_PercentAccess (total clean : option Z) : option double :=
  otherwise
    (when_ (sql_gt total (lit 0))
           (sql_round (sql_mul (sql_div clean total) (lit 100)) 2))
    (Some (of_int 0)).

Definition summary_row (g : group_key * (option Z * option Z)) : Summary.row :=
  let '(k, (t, c)) := g in
  {| Summary.State := fst k;
     Summary.District := snd k;
     Summary.TotalHouseholds := t;
     Summary.CleanWaterHH := c;
     Summary.PercentAccess := summary_PercentAccess t c |}.

Definition summarize (df : list record) : list Summary.row :=
  map summary_row (groupBy_agg df).

(** The rows of a dataframe that fall in the group of a key. *)
Definition group_rows (k : group_key) (df : list record) : list record :=
  List.filter (fun r => bool_decide (key_of r = k)) df.

(** SQL [sum] over the values of a column. *)
Definition sql_sum (vs : list (option Z)) : option Z :=
  fold_left sum_step vs None.

Definition null_as_zero (v : option Z) : Z :=
  match v with Some x => x | None => 0 end.

(** The plain sum of a column, a NULL counting as zero. *)
Definition sum_nulls_as_zero (vs : list (option Z)) : Z :=
  fold_right Z.add 0 (map null_as_zero vs).

Definition is_null {A} (v : option A) : bool :=
  match v with None => true | Some _ => false end.

Definition lookup_group (k : group_key) (gs : groups)
  : option (option Z * option Z) :=
  option_map snd (List.find (fun g => bool_decide (fst g = k)) gs).

Definition summary_key (s : Summary.row) : group_key :=
  (Summary.State s, Summary.District s).


(** ** Exporter (lines 47-68 and 107-109) *)

#[warnings="-register-all"]
Inductive json : Type :=
| JNull
| JNumber (x : double)
| JString (s : string)
| JArray (l : list json)
| JObject (l : list (string * json)).

Definition json_text (t : text) : json :=
  match t with Some s => JString s | None => JNull end.

Definition json_double (x : option double) : json :=
  match x with Some d => JNumber d | None => JNull end.

(** Exceptions that end the run. *)
Inductive exn : Type :=
| TypeError
| AnalysisException.

Definition result (A : Type) : Type := exn + A.

(** Python's [round(x, n)]: [None] has no [__round__]. *)
Definition py_round (x : option double) (n : nat) : result double :=
  match x with
  | Some d => inr (float_round d n)
  | None => inl TypeError
  end.

(** The dict appended for one row (lines 53-63), [p] being the rounded
    percentage. *)
Definition feature_dict (r : record) (p : double) : json :=
  JObject
    [("type"%string, JString "Feature");
     ("geometry"%string,
        JObject [("type"%string, JString "Point");
                 ("coordinates"%string,
                    JArray [json_double (Lon r); json_double (Lat r)])]);
     ("properties"%string,
        JObject [("Village"%string, json_text (Village r));
                 ("District"%string, json_text (District r));
                 ("State"%string, json_text (State r));
                 ("PercentAccess"%string, JNumber p);
                 ("AccessLevel"%string, json_text (AccessLevel r))])].

Definition feature (r : record) : result json :=
  match py_round (PercentAccess r) 2 with
  | inl e => inl e
  | inr p => inr (feature_dict r p)
  end.

(** The loop of lines 52-63, [features] being the list built so far. *)
Fixpoint features_loop (rows : list record) (features : list json)
  : result (list json) :=
  match rows with
  | [] => inr features
  | r :: rows' =>
      match feature r with
      | inl e => inl e
      | inr f => features_loop rows' (features ++ [f])
      end
  end.

Definition feature_collection (features : list json) : json :=
  JObject [("type"%string, JString "FeatureCollection");
           ("features"%string, JArray features)].

(** What a path holds after a write.  The summary is the logical content
    of the [district_summary] folder that the engine writes. *)
Inductive file : Type :=
| CsvDir (rows : list Summary.row)
| JsonFile (doc : json)
| TextFile (s : string).

(** The part of the outside world the script changes: the files under the
    output paths (a flat map from path to content, folders are implicit)
    and the lines printed. *)
Record world : Type := mkWorld {
  fs : gmap string file;
  stdout : list string
}.

(** A step of the script: it changes the world and either returns a value
    or raises. *)
Definition prog (A : Type) : Type := world -> world * result A.

Definition ret {A} (a : A) : prog A := fun w => (w, inr a).

Definition raise {A} (e : exn) : prog A := fun w => (w, inl e).

Definition bind {A B} (m : prog A) (k : A -> prog B) : prog B :=
  fun w =>
    match m w with
    | (w', inl e) => (w', inl e)
    | (w', inr a) => k a w'
    end.

Notation "x <- m ;; k" := (bind m (fun x => k))
  (at level 62, m at next level, right associativity).
Notation "m ;;; k" := (bind m (fun _ => k))
  (at level 62, right associativity).

Definition lift {A} (r : result A) : prog A := fun w => (w, r).

(** A write in mode ["w"] or ["overwrite"]: the path's old content, if
    any, is replaced. *)
Definition write (path : string) (content : file) : prog unit :=
  fun w => (mkWorld (<[path := content]> (fs w)) (stdout w), inr tt).

Definition print (line : string) : prog unit :=
  fun w => (mkWorld (fs w) (stdout w ++ [line]), inr tt).

Fixpoint ends_with_slash (s : string) : bool :=
  match s with
  | EmptyString => false
  | String c EmptyString => Ascii.eqb c (Ascii.ascii_of_nat 47)
  | String _ s' => ends_with_slash s'
  end.

(** [os.path.join(a, b)] for a [b] that does not start with a slash. *)
Definition path_join (a b : string) : string :=
  match a with
  | EmptyString => b
  | _ => if ends_with_slash a then a +:+ b else a +:+ "/" +:+ b
  end.

Definition dq : string := String (Ascii.ascii_of_nat 34) EmptyString.

Definition nl : string := String (Ascii.ascii_of_nat 10) EmptyString.

Definition lines (l : list string) : string := String.concat nl l.

Definition html_code : string :=
  lines
    ["<!DOCTYPE html>";
     "<html>";
     "<head>";
     "<meta charset=" +:+ dq +:+ "utf-8" +:+ dq +:+ ">";
     "<title>SDG 6 - Clean Water Map</title>";
     "<link rel=" +:+ dq +:+ "stylesheet" +:+ dq +:+ " href=" +:+ dq
       +:+ "https://unpkg.com/leaflet@1.9.4/dist/leaflet.css" +:+ dq +:+ " />";
     "<link rel=" +:+ dq +:+ "stylesheet" +:+ dq +:+ " href=" +:+ dq
       +:+ "styles.css" +:+ dq +:+ " />";
     "</head>";
     "<body>";
     "<h2>Mapping Access to Clean Water (SDG 6)</h2>";
     "<div id=" +:+ dq +:+ "map" +:+ dq +:+ "></div>";
     "<script src=" +:+ dq
       +:+ "https://unpkg.com/leaflet@1.9.4/dist/leaflet.js" +:+ dq
       +:+ "></script>";
     "<script src=" +:+ dq +:+ "script.js" +:+ dq +:+ "></script>";
     "</body>";
     "</html>"]%string.

Definition css_code : string :=
  lines
    ["body {margin:0;font-family:Arial;}";
     "h2 {background:#00796B;color:#fff;margin:0;padding:10px;text-align:center;}";
     "#map {width:100%;height:95vh;}"]%string.

Definition js_code : string :=
  lines
    ["const map = L.map('map').setView([23.5, 80], 6);";
     "L.tileLayer('https://{s}.tile.openstreetmap.org/{z}/{x}/{y}.png', {maxZoom:18}).addTo(map);";
     "fetch('points.geojson').then(r=>r.json()).then(data=>{";
     "L.geoJSON(data,{";
     " pointToLayer:(f,latlng)=>{";
     "   const color=f.properties.AccessLevel==='High'?'green':";
     "                f.properties.AccessLevel==='Medium'?'orange':'red';";
     "   return L.circleMarker(latlng,{radius:6,fillColor:color,color:'#000',weight:0.5,fillOpacity:0.8});";
     " },";
     " onEachFeature:(f,layer)=>{";
     "   const p=f.properties;";
     "   layer.bindPopup(`<b>${p.Village}</b><br>${p.District}, ${p.State}<br>${p.PercentAccess}% (${p.AccessLevel})`);";
     " }";
     "}).addTo(map);";
     "});"]%string.

Definition usage : string :=
  "Usage: spark-submit sdg6_cleanwater_allinone.py <input_csv> <output_folder>".

Section Main.

Variable cell : Type.
Variable cast_int : cell -> option Z.
Variable cast_double : cell -> option double.

(** The engine's CSV reader: the rows of the file at a path, or [None]
    when the path can not be read. *)
Variable read_csv : string -> option (list (csv_row cell)).

Definition load (input_path : string) : prog (list (csv_row cell)) :=
  match read_csv input_path with
  | Some rows => ret rows
  | None => raise AnalysisException
  end.

(** [main] (lines 12-118).  Creating and stopping the session leave the
    modelled world as it is. *)
Definition main (input_path output_dir : string) : prog unit :=
  csv <- load input_path ;;
  let df := map (transform cast_int cast_double) csv in
  write (output_dir +:+ "/district_summary") (CsvDir (summarize df)) ;;;
  features <- lift (features_loop df []) ;;
  write (path_join output_dir "points.geojson")
        (JsonFile (feature_collection features)) ;;;
  write (path_join output_dir "index.html") (TextFile html_code) ;;;
  write (path_join output_dir "styles.css") (TextFile css_code) ;;;
  write (path_join output_dir "script.js") (TextFile js_code) ;;;
  print "✅ Analysis complete." ;;;
  print ("Outputs generated in folder: " +:+ output_dir) ;;;
  print "Files:" ;;;
  print " - district_summary/ (CSV folder)" ;;;
  print " - points.geojson" ;;;
  print " - index.html, styles.css, script.js (open index.html to view map)".

(** The [__main__] block (lines 120-124).  The result is the exit
    status: 1 after [sys.exit(1)] and after an uncaught exception. *)
Definition script (argv : list string) (w : world) : world * Z :=
  if negb (length argv =? 3)%nat then
    match print usage w with
    | (w', _) => (w', 1)
    end
  else
    match main (nth 1 argv ""%string) (nth 2 argv ""%string) w with
    | (w', inr _) => (w', 0)
    | (w', inl _) => (w', 1)
    end.

End Main.

Arguments load {cell}.
Arguments main {cell}.
Arguments script {cell}.

(** The files of a complete run, on top of what the paths held. *)
Definition written (output_dir : string) (df : list record)
           (features : list json) (m : gmap string file) : gmap string file :=
  <[path_join output_dir "script.js" := TextFile js_code]>
    (<[path_join output_dir "styles.css" := TextFile css_code]>
      (<[path_join output_dir "index.html" := TextFile html_code]>
        (<[path_join output_dir "points.geojson"
            := JsonFile (feature_collection features)]>
          (<[output_dir +:+ "/district_summary" := CsvDir (summarize df)]>
            m)))).

(** The lines printed at the end of a complete run. *)
Definition report (output_dir : string) : list string :=
  ["✅ Analysis complete.";
   "Outputs generated in folder: " +:+ output_dir;
   "Files:";
   " - district_summary/ (CSV folder)";
   " - points.geojson";
   " - index.html, styles.css, script.js (open index.html to view map)"
  ]%string.

(** ** A sample engine

    Cells of four kinds and casts that behave on them as the engine's do:
    a number is converted (a double to an int by dropping its fraction),
    an empty cell and text that is not a number give NULL. *)

Inductive sample_cell : Type :=
| Empty
| IntCell (z : Z)
| DoubleCell (x : double)
| NotANumber (s : string).

Definition sample_cast_int (c : sample_cell) : option Z :=
  match c with
  | IntCell z => Some z
  | DoubleCell x => Some (Z.quot (Qnum x) (Z.pos (Qden x)))
  | Empty | NotANumber _ => None
  end.

Definition sample_cast_double (c : sample_cell) : option double :=
  match c with
  | IntCell z => Some (of_int z)
  | DoubleCell x => Some x
  | Empty | NotANumber _ => None
  end.

Definition sample_transform : csv_row sample_cell -> record :=
  transform sample_cast_int sample_cast_double.

(** A village of a given district with its two counts and a position. *)
Definition village (name dist : string) (total clean : sample_cell)
  : csv_row sample_cell :=
  mkCsvRow (Some name) (Some dist) (Some "MP"%string) total clean
           (DoubleCell (47 # 2)) (DoubleCell 80).

(** A reader that knows one file. *)
Definition one_file (path : string) (rows : list (csv_row sample_cell))
  : string -> option (list (csv_row sample_cell)) :=
  fun p => if String.eqb p path then Some rows else None.

Definition empty_world : world := mkWorld ∅ [].

(** Two villages of one district: 80 of 100 and 10 of 50 households. *)
Definition two_villages : list (csv_row sample_cell) :=
  [village "A" "Sagar" (IntCell 100) (IntCell 80);
   village "B" "Sagar" (IntCell 50) (IntCell 10)].

(** The summary row of the district of [two_villages]. *)
Definition sagar_summary : Summary.row :=
  {| Summary.State := Some "MP"%string;
     Summary.District := Some "Sagar"%string;
     Summary.TotalHouseholds := Some 150;
     Summary.CleanWaterHH := Some 90;
     Summary.PercentAccess := Some 60%Q |}.

(** A district whose only village has no usable household total. *)
Definition unknown_total : list (csv_row sample_cell) :=
  [village "C" "Damoh" Empty (IntCell 5)].

(** A village whose clean-water count is missing from the file. *)
Definition missing_clean : csv_row sample_cell :=
  village "B" "Sagar" (IntCell 50) Empty.

(** A file in which the second village lacks its clean-water count. *)
Definition one_count_missing : list (csv_row sample_cell) :=
  [village "A" "Sagar" (IntCell 100) (IntCell 80); missing_clean].

(** The command line of a regular run. *)
Definition regular_argv : list string :=
  ["combiner.py"; "villages.csv"; "out"]%string.

(** The script on the sample engine, reading [rows] from villages.csv. *)
Definition sample_script (rows : list (csv_row sample_cell))
  : list string -> world -> world * Z :=
  script sample_cast_int sample_cast_double (one_file "villages.csv" rows).

(** One household in 800 has clean water: 0.125 percent. *)
Definition one_in_800 : csv_row sample_cell :=
  village "D" "Panna" (IntCell 800) (IntCell 1).

(** The record-level percentage on machine doubles. *)
Definition binary64_percent (clean total : float) : float :=
  PrimFloat.mul (PrimFloat.div clean total) 100%float.

(** The five paths a run writes to, in the order of the writes. *)
Definition output_paths (output_dir : string) : list string :=
  [output_dir +:+ "/district_summary";
   path_join output_dir "points.geojson";
   path_join output_dir "index.html";
   path_join output_dir "styles.css";
   path_join output_dir "script.js"]%string.

(** A village just under the "High" threshold: 74.996 percent. *)
Definition near_threshold : csv_row sample_cell :=
  village "E" "Rewa" (IntCell 25000) (IntCell 18749).

(** * Properties *)

(** ** Rationals in lowest terms and the two roundings *)

Lemma ddiv_eq (a b : double) : (ddiv a b == a / b)%Q.
Proof. apply Qred_correct. Qed.

Lemma dmul_eq (a b : double) : (dmul a b == a * b)%Q.
Proof. apply Qred_correct. Qed.

Lemma dge_true (a b : double) : dge a b = true <-> (b <= a)%Q.
Proof. apply Qle_bool_iff. Qed.

Lemma dge_false (a b : double) : dge a b = false <-> (a < b)%Q.
Proof.
  unfold dge. split; intros H.
  - apply Qnot_le_lt. intros Hle. apply Qle_bool_iff in Hle. congruence.
  - destruct (Qle_bool b a) eqn:E; [|reflexivity].
    apply Qle_bool_iff in E. exfalso. exact (Qlt_not_le _ _ H E).
Qed.

Lemma Qle_bool_proper (a b c d : Q) :
  (a == b)%Q -> (c == d)%Q -> Qle_bool a c = Qle_bool b d.
Proof.
  intros Hab Hcd.
  destruct (Qle_bool a c) eqn:E1, (Qle_bool b d) eqn:E2; try reflexivity.
  - apply Qle_bool_iff in E1. rewrite Hab, Hcd in E1.
    apply Qle_bool_iff in E1. congruence.
  - apply Qle_bool_iff in E2. rewrite <- Hab, <- Hcd in E2.
    apply Qle_bool_iff in E2. congruence.
Qed.

Lemma round_half_up_proper (x y : Q) :
  (x == y)%Q -> round_half_up x = round_half_up y.
Proof.
  intros H. unfold round_half_up.
  rewrite (Qle_bool_proper 0 0 x y (Qeq_refl 0) H).
  destruct (Qle_bool 0 y).
  - apply Qfloor_comp. rewrite H. reflexivity.
  - f_equal. apply Qfloor_comp. rewrite H. reflexivity.
Qed.

Lemma round_half_even_proper (x y : Q) :
  (x == y)%Q -> round_half_even x = round_half_even y.
Proof.
  intros H. unfold round_half_even.
  rewrite (Qfloor_comp _ _ H).
  assert (E : (x - inject_Z (Qfloor y) ?= 1 # 2)%Q
              = (y - inject_Z (Qfloor y) ?= 1 # 2)%Q).
  { apply Qcompare_comp; [rewrite H|]; reflexivity. }
  rewrite E. reflexivity.
Qed.

Lemma sround_proper (x y : Q) (d : nat) :
  (x == y)%Q -> sround x d = sround y d.
Proof.
  intros H. unfold sround.
  rewrite (round_half_up_proper (x * pow10 d) (y * pow10 d)); [reflexivity|].
  rewrite H. reflexivity.
Qed.

Lemma float_round_proper (x y : Q) (d : nat) :
  (x == y)%Q -> float_round x d = float_round y d.
Proof.
  intros H. unfold float_round.
  rewrite (round_half_even_proper (x * pow10 d) (y * pow10 d)); [reflexivity|].
  rewrite H. reflexivity.
Qed.

(** ** The two derived columns *)

Lemma PercentAccess_col_ratio (t c : Z) :
  0 < t ->
  PercentAccess_col (Some t) (Some c)
  = Some (dmul (ddiv (of_int c) (of_int t)) (of_int 100)).
Proof.
  intros Ht. unfold PercentAccess_col, when_, lit, sql_gt. cbn [otherwise].
  assert (E1 : (0 <? t) = true) by (apply Z.ltb_lt; lia).
  assert (E2 : (t =? 0) = false) by (apply Z.eqb_neq; lia).
  rewrite E1. unfold sql_div. rewrite E2. reflexivity.
Qed.

Lemma PercentAccess_col_null_clean (t : Z) :
  0 < t -> PercentAccess_col (Some t) None = None.
Proof.
  intros Ht. unfold PercentAccess_col, when_, lit, sql_gt. cbn [otherwise].
  assert (E1 : (0 <? t) = true) by (apply Z.ltb_lt; lia).
  rewrite E1. reflexivity.
Qed.

Lemma PercentAccess_col_otherwise (total clean : option Z) :
  ~ (exists t, total = Some t /\ 0 < t) ->
  PercentAccess_col total clean = Some 0%Q.
Proof.
  intros H. unfold PercentAccess_col, when_, lit, sql_gt. cbn [otherwise].
  destruct total as [t|]; [|reflexivity].
  destruct (0 <? t) eqn:E; [|reflexivity].
  exfalso. apply H. exists t. split; [reflexivity|]. apply Z.ltb_lt. exact E.
Qed.


Lemma ratio_value (t c : Z) :
  (dmul (ddiv (of_int c) (of_int t)) (of_int 100)
   == inject_Z c / inject_Z t * 100)%Q.
Proof.
  rewrite dmul_eq, ddiv_eq. unfold of_int. reflexivity.
Qed.

Lemma AccessLevel_col_cases (pct : option double) :
  AccessLevel_col pct
  = match pct with
    | Some p =>
        if dge p 75%Q then Some "High"%string
        else if dge p 40%Q then Some "Medium"%string
        else Some "Low"%string
    | None => Some "Low"%string
    end.
Proof.
  destruct pct as [p|]; [|reflexivity].
  unfold AccessLevel_col, and_when, when_, lit, sql_ge. cbn [app otherwise].
  change (of_int 75) with 75%Q. change (of_int 40) with 40%Q.
  destruct (dge p 75%Q); [reflexivity|].
  destruct (dge p 40%Q); reflexivity.
Qed.

(** ** Record-level metrics *)



(** C2.  For every transformed record [AccessLevel] is a function of
    [PercentAccess] alone, never NULL, decided by the first matching test:
    at least 75 is "High", else at least 40 is "Medium", else "Low" (a NULL
    percentage matches no test).  75 itself is "High", 40 itself is
    "Medium", and a record with no households, whose percentage is 0, is
    "Low". *)
Theorem access_level_thresholds :
  forall (cell : Type) (cast_int : cell -> option Z)
         (cast_double : cell -> option double) (r : csv_row cell),
    let rec := transform cast_int cast_double r in
    AccessLevel rec = AccessLevel_col (PercentAccess rec)
    /\ (forall pct : option double,
          AccessLevel_col pct = Some "High"%string
          \/ AccessLevel_col pct = Some "Medium"%string
          \/ AccessLevel_col pct = Some "Low"%string)
    /\ (forall p, (75 <= p)%Q -> AccessLevel_col (Some p) = Some "High"%string)
    /\ (forall p, (40 <= p)%Q -> (p < 75)%Q ->
                  AccessLevel_col (Some p) = Some "Medium"%string)
    /\ (forall p, (p < 40)%Q -> AccessLevel_col (Some p) = Some "Low"%string)
    /\ AccessLevel_col None = Some "Low"%string
    /\ AccessLevel_col (Some 75%Q) = Some "High"%string
    /\ AccessLevel_col (Some 40%Q) = Some "Medium"%string
    /\ (TotalHouseholds rec = Some 0 ->
        PercentAccess rec = Some 0%Q /\ AccessLevel rec = Some "Low"%string).
Proof.
  intros cell cast_int cast_double r rec.
  split; [reflexivity|].
  split.
  { intros pct. rewrite AccessLevel_col_cases.
    destruct pct as [p|]; [|auto].
    destruct (dge p 75%Q); [auto|]. destruct (dge p 40%Q); auto. }
  split.
  { intros p H. rewrite AccessLevel_col_cases.
    apply dge_true in H. rewrite H. reflexivity. }
  split.
  { intros p H40 H75. rewrite AccessLevel_col_cases.
    apply dge_true in H40. apply dge_false in H75.
    rewrite H75, H40. reflexivity. }
  split.
  { intros p H. rewrite AccessLevel_col_cases.
    assert (H75 : (p < 75)%Q).
    { eapply Qlt_trans; [exact H|]. reflexivity. }
    apply dge_false in H. apply dge_false in H75.
    rewrite H75, H. reflexivity. }
  split; [reflexivity|].
  split; [reflexivity|].
  split; [reflexivity|].
  intros Ht.
  assert (Hp : PercentAccess rec = Some 0%Q).
  { change (PercentAccess rec)
      with (PercentAccess_col (TotalHouseholds rec) (CleanWaterHH rec)).
    apply PercentAccess_col_otherwise.
    intros [t [E Hpos]]. rewrite Ht in E. inversion E. lia. }
  split; [exact Hp|].
  change (AccessLevel rec) with (AccessLevel_col (PercentAccess rec)).
  rewrite Hp. reflexivity.
Qed.

Lemma access_level_thresholds_witness :
  (75 <= 80)%Q /\ AccessLevel_col (Some 80%Q) = Some "High"%string.
Proof.
  split; [discriminate|].
  destruct (access_level_thresholds sample_cell sample_cast_int
              sample_cast_double
              (village "A" "Sagar" (IntCell 100) (IntCell 80)))
    as [_ [_ [H _]]].
  apply H. discriminate.
Defined.

(** C9.  A row with [TotalHouseholds > 0] and a NULL [CleanWaterHH] has a
    NULL [PercentAccess] (not 0) and the level "Low"; a row whose
    [TotalHouseholds] is NULL or negative has [PercentAccess] 0, the ratio
    not being applied, and the level "Low" as well. *)
Theorem null_and_negative_rows :
  forall (cell : Type) (cast_int : cell -> option Z)
         (cast_double : cell -> option double) (r : csv_row cell),
    let rec := transform cast_int cast_double r in
    (forall t,
        TotalHouseholds rec = Some t -> 0 < t -> CleanWaterHH rec = None ->
        PercentAccess rec = None /\ PercentAccess rec <> Some 0%Q
        /\ AccessLevel rec = Some "Low"%string)
    /\ (TotalHouseholds rec = None ->
        PercentAccess rec = Some 0%Q /\ AccessLevel rec = Some "Low"%string)
    /\ (forall t,
        TotalHouseholds rec = Some t -> t < 0 ->
        PercentAccess rec = Some 0%Q /\ AccessLevel rec = Some "Low"%string).
Proof.
  intros cell cast_int cast_double r rec.
  assert (Hp : PercentAccess rec
               = PercentAccess_col (TotalHouseholds rec) (CleanWaterHH rec))
    by reflexivity.
  assert (Hl : AccessLevel rec = AccessLevel_col (PercentAccess rec))
    by reflexivity.
  assert (Hzero : PercentAccess rec = Some 0%Q ->
                  PercentAccess rec = Some 0%Q
                  /\ AccessLevel rec = Some "Low"%string).
  { intros E. split; [exact E|]. rewrite Hl, E. reflexivity. }
  split; [|split].
  - intros t Ht Hpos Hc.
    assert (E : PercentAccess rec = None).
    { rewrite Hp, Ht, Hc. apply PercentAccess_col_null_clean. exact Hpos. }
    split; [exact E|]. split.
    + rewrite E. discriminate.
    + rewrite Hl, E. reflexivity.
  - intros Ht. apply Hzero. rewrite Hp. apply PercentAccess_col_otherwise.
    intros [t [E _]]. rewrite Ht in E. discriminate E.
  - intros t Ht Hneg. apply Hzero. rewrite Hp.
    apply PercentAccess_col_otherwise.
    intros [t' [E Hpos]]. rewrite Ht in E. inversion E. lia.
Qed.

Lemma null_and_negative_rows_witness :
  let rec := sample_transform
               (village "B" "Sagar" (IntCell 50) (NotANumber "n/a")) in
  TotalHouseholds rec = Some 50 /\ 0 < 50 /\ CleanWaterHH rec = None
  /\ PercentAccess rec = None /\ PercentAccess rec <> Some 0%Q
  /\ AccessLevel rec = Some "Low"%string.
Proof.
  intros rec.
  split; [reflexivity|]. split; [lia|]. split; [reflexivity|].
  destruct (null_and_negative_rows sample_cell sample_cast_int
              sample_cast_double
              (village "B" "Sagar" (IntCell 50) (NotANumber "n/a")))
    as [H _].
  apply (H 50); [reflexivity | lia | reflexivity].
Defined.

(** ** Grouping *)

Lemma lookup_group_cons (k k' : group_key) (v : option Z * option Z)
      (gs : groups) :
  lookup_group k ((k', v) :: gs)
  = if decide (k' = k) then Some v else lookup_group k gs.
Proof.
  unfold lookup_group. cbn [List.find fst].
  destruct (decide (k' = k)) as [E|E].
  - rewrite (bool_decide_eq_true_2 _ E). reflexivity.
  - rewrite (bool_decide_eq_false_2 _ E). reflexivity.
Qed.

Lemma lookup_add_to_group (k k' : group_key) (t c : option Z) (gs : groups) :
  lookup_group k' (add_to_group k t c gs)
  = if decide (k = k')
    then Some (sum_step (fst (default (None, None) (lookup_group k gs))) t,
               sum_step (snd (default (None, None) (lookup_group k gs))) c)
    else lookup_group k' gs.
Proof.
  induction gs as [|[k0 [st sc]] gs IH].
  - cbn [add_to_group]. rewrite lookup_group_cons.
    destruct (decide (k = k')); reflexivity.
  - cbn [add_to_group]. destruct (decide (k = k0)) as [E0|E0].
    + subst k0. rewrite !lookup_group_cons.
      destruct (decide (k = k')) as [E|E].
      * rewrite decide_True by reflexivity. reflexivity.
      * reflexivity.
    + rewrite !lookup_group_cons. rewrite IH.
      destruct (decide (k0 = k')) as [E1|E1].
      * subst k'. rewrite decide_False by exact E0. reflexivity.
      * destruct (decide (k = k')) as [E|E]; [|reflexivity].
        rewrite decide_False by (intros E2; apply E0; symmetry; exact E2).
        reflexivity.
Qed.

Lemma keys_add_to_group (k : group_key) (t c : option Z) (gs : groups) :
  forall k', In k' (map fst (add_to_group k t c gs))
             <-> k' = k \/ In k' (map fst gs).
Proof.
  induction gs as [|[k0 [st sc]] gs IH]; intros k'.
  - cbn. intuition.
  - cbn [add_to_group]. destruct (decide (k = k0)) as [E0|E0].
    + subst k0. cbn. intuition.
    + cbn [map fst In]. rewrite IH. intuition.
Qed.

Lemma NoDup_add_to_group (k : group_key) (t c : option Z) (gs : groups) :
  List.NoDup (map fst gs) -> List.NoDup (map fst (add_to_group k t c gs)).
Proof.
  induction gs as [|[k0 [st sc]] gs IH]; intros Hnd.
  - cbn. constructor; [intros []|constructor].
  - cbn [add_to_group]. destruct (decide (k = k0)) as [E0|E0].
    + exact Hnd.
    + cbn [map fst] in *. inversion Hnd as [|? ? Hnotin Hnd']; subst.
      constructor.
      * intros Hin. apply keys_add_to_group in Hin.
        destruct Hin as [E|Hin]; [apply E0; symmetry; exact E|].
        apply Hnotin. exact Hin.
      * apply IH. exact Hnd'.
Qed.

Lemma NoDup_fold (df : list record) :
  forall gs, List.NoDup (map fst gs) ->
             List.NoDup (map fst (fold_left agg_step df gs)).
Proof.
  induction df as [|r df IH]; intros gs Hnd; [exact Hnd|].
  cbn [fold_left]. apply IH. apply NoDup_add_to_group. exact Hnd.
Qed.

Lemma keys_fold (df : list record) :
  forall gs k, In k (map fst (fold_left agg_step df gs))
               <-> In k (map key_of df) \/ In k (map fst gs).
Proof.
  induction df as [|r df IH]; intros gs k.
  - cbn. intuition.
  - cbn [fold_left map In]. rewrite IH. unfold agg_step.
    rewrite keys_add_to_group. intuition.
Qed.

Lemma group_rows_cons (k : group_key) (r : record) (df : list record) :
  group_rows k (r :: df)
  = if decide (key_of r = k) then r :: group_rows k df else group_rows k df.
Proof.
  unfold group_rows. cbn [List.filter].
  destruct (decide (key_of r = k)) as [E|E].
  - rewrite (bool_decide_eq_true_2 _ E). reflexivity.
  - rewrite (bool_decide_eq_false_2 _ E). reflexivity.
Qed.

Lemma lookup_fold (k : group_key) (df : list record) :
  forall gs,
    lookup_group k (fold_left agg_step df gs)
    = match lookup_group k gs, group_rows k df with
      | None, [] => None
      | o, rows =>
          Some (fold_left sum_step (map TotalHouseholds rows)
                          (fst (default (None, None) o)),
                fold_left sum_step (map CleanWaterHH rows)
                          (snd (default (None, None) o)))
      end.
Proof.
  induction df as [|r df IH]; intros gs.
  - cbn. destruct (lookup_group k gs) as [[st sc]|]; reflexivity.
  - cbn [fold_left]. rewrite IH. unfold agg_step.
    rewrite lookup_add_to_group, group_rows_cons.
    destruct (decide (key_of r = k)) as [E|E].
    + subst k. destruct (lookup_group (key_of r) gs) as [[st sc]|];
        reflexivity.
    + reflexivity.
Qed.

Lemma lookup_group_In (k : group_key) (v : option Z * option Z) (gs : groups) :
  List.NoDup (map fst gs) -> In (k, v) gs -> lookup_group k gs = Some v.
Proof.
  induction gs as [|[k0 v0] gs IH]; intros Hnd Hin; [destruct Hin|].
  cbn [map fst] in Hnd. inversion Hnd as [|? ? Hnotin Hnd']; subst.
  rewrite lookup_group_cons. destruct Hin as [E|Hin].
  - inversion E; subst. rewrite decide_True by reflexivity. reflexivity.
  - destruct (decide (k0 = k)) as [E|E].
    + subst k0. exfalso. apply Hnotin.
      change k with (fst (k, v)). apply in_map. exact Hin.
    + apply IH; assumption.
Qed.

Lemma lookup_group_Some (k : group_key) (v : option Z * option Z)
      (gs : groups) :
  lookup_group k gs = Some v -> In (k, v) gs.
Proof.
  induction gs as [|[k0 v0] gs IH]; intros H.
  - discriminate H.
  - rewrite lookup_group_cons in H. destruct (decide (k0 = k)) as [E|E].
    + inversion H; subst. left. reflexivity.
    + right. apply IH. exact H.
Qed.

Lemma sum_nulls_as_zero_cons (v : option Z) (vs : list (option Z)) :
  sum_nulls_as_zero (v :: vs) = null_as_zero v + sum_nulls_as_zero vs.
Proof. reflexivity. Qed.

(** SQL [sum] in closed form. *)
Lemma fold_sum_step_Some (vs : list (option Z)) :
  forall a, fold_left sum_step vs (Some a) = Some (a + sum_nulls_as_zero vs).
Proof.
  induction vs as [|[x|] vs IH]; intros a.
  - change (sum_nulls_as_zero []) with 0. cbn [fold_left]. apply f_equal. lia.
  - cbn [fold_left sum_step]. rewrite IH, sum_nulls_as_zero_cons.
    cbn [null_as_zero]. apply f_equal. lia.
  - cbn [fold_left sum_step]. rewrite IH, sum_nulls_as_zero_cons.
    cbn [null_as_zero]. apply f_equal. lia.
Qed.

Lemma sql_sum_closed (vs : list (option Z)) :
  sql_sum vs
  = if forallb is_null vs then None else Some (sum_nulls_as_zero vs).
Proof.
  unfold sql_sum. induction vs as [|[x|] vs IH].
  - reflexivity.
  - cbn [fold_left sum_step forallb is_null andb].
    rewrite fold_sum_step_Some, sum_nulls_as_zero_cons. reflexivity.
  - cbn [fold_left sum_step forallb is_null andb]. rewrite IH.
    rewrite sum_nulls_as_zero_cons. cbn [null_as_zero].
    destruct (forallb is_null vs); [reflexivity|]. apply f_equal. lia.
Qed.

(** What the aggregation holds for each of its groups. *)
Lemma groupBy_agg_spec (df : list record) (k : group_key)
      (v : option Z * option Z) :
  In (k, v) (groupBy_agg df) ->
  group_rows k df <> []
  /\ v = (sql_sum (map TotalHouseholds (group_rows k df)),
          sql_sum (map CleanWaterHH (group_rows k df))).
Proof.
  intros Hin.
  assert (Hnd : List.NoDup (map fst (groupBy_agg df))).
  { apply (NoDup_fold df []). constructor. }
  pose proof (lookup_group_In k v _ Hnd Hin) as Hl.
  unfold groupBy_agg in Hl.
  rewrite (lookup_fold k df []) in Hl.
  change (lookup_group k []) with (@None (option Z * option Z)) in Hl.
  destruct (group_rows k df) as [|r rows] eqn:E; [discriminate Hl|].
  split; [discriminate|]. inversion Hl. reflexivity.
Qed.

Lemma summarize_In (df : list record) (s : Summary.row) :
  In s (summarize df) ->
  exists t c, In (summary_key s, (t, c)) (groupBy_agg df)
              /\ s = summary_row (summary_key s, (t, c)).
Proof.
  unfold summarize. intros Hin. apply in_map_iff in Hin.
  destruct Hin as [[[ks kd] [t c]] [Hs Hin]]. subst s.
  exists t, c. split; [exact Hin|reflexivity].
Qed.

Lemma summary_keys (df : list record) :
  map summary_key (summarize df) = map fst (groupBy_agg df).
Proof.
  unfold summarize. rewrite map_map. apply map_ext.
  intros [[ks kd] [t c]]. reflexivity.
Qed.

Lemma forallb_is_null_true (f : record -> option Z) (rows : list record) :
  (forall r, In r rows -> f r = None) ->
  forallb is_null (map f rows) = true.
Proof.
  intros H. apply forallb_forall. intros v Hv. apply in_map_iff in Hv.
  destruct Hv as [r [E Hr]]. subst v. rewrite (H r Hr). reflexivity.
Qed.

Lemma forallb_is_null_false (f : record -> option Z) (rows : list record) :
  (exists r, In r rows /\ f r <> None) ->
  forallb is_null (map f rows) = false.
Proof.
  intros [r [Hr Hf]].
  destruct (forallb is_null (map f rows)) eqn:E; [|reflexivity].
  exfalso. rewrite forallb_forall in E.
  specialize (E (f r) (in_map f rows r Hr)).
  destruct (f r); [discriminate E|]. apply Hf. reflexivity.
Qed.

Lemma summary_PercentAccess_ratio (t c : Z) :
  0 < t ->
  summary_PercentAccess (Some t) (Some c)
  = Some (sround (100 * inject_Z c / inject_Z t) 2).
Proof.
  intros Ht. unfold summary_PercentAccess, when_, lit, sql_gt.
  cbn [otherwise].
  assert (E1 : (0 <? t) = true) by (apply Z.ltb_lt; lia).
  assert (E2 : (t =? 0) = false) by (apply Z.eqb_neq; lia).
  rewrite E1. unfold sql_div. rewrite E2. cbn [sql_mul sql_round].
  f_equal. apply sround_proper. rewrite ratio_value.
  unfold Qdiv. ring.
Qed.


Lemma summary_PercentAccess_otherwise (total clean : option Z) :
  ~ (exists t, total = Some t /\ 0 < t) ->
  summary_PercentAccess total clean = Some 0%Q.
Proof.
  intros H. unfold summary_PercentAccess, when_, lit, sql_gt.
  cbn [otherwise].
  destruct total as [t|]; [|reflexivity].
  destruct (0 <? t) eqn:E; [|reflexivity].
  exfalso. apply H. exists t. split; [reflexivity|]. apply Z.ltb_lt. exact E.
Qed.

(** Each row of the summary, in terms of the rows of its group. *)
Lemma summarize_spec (df : list record) (s : Summary.row) :
  In s (summarize df) ->
  let rows := group_rows (summary_key s) df in
  rows <> []
  /\ Summary.TotalHouseholds s = sql_sum (map TotalHouseholds rows)
  /\ Summary.CleanWaterHH s = sql_sum (map CleanWaterHH rows)
  /\ Summary.PercentAccess s
     = summary_PercentAccess (sql_sum (map TotalHouseholds rows))
                             (sql_sum (map CleanWaterHH rows)).
Proof.
  intros Hin rows.
  destruct (summarize_In df s Hin) as [t [c [Hg Hs]]].
  destruct (groupBy_agg_spec df _ _ Hg) as [Hne Hv].
  inversion Hv as [[Ht Hc]]. fold rows in Ht, Hc.
  split; [exact Hne|].
  rewrite Hs. cbn [summary_row Summary.TotalHouseholds Summary.CleanWaterHH
                   Summary.PercentAccess].
  rewrite <- Ht, <- Hc. repeat split; reflexivity.
Qed.

(** ** District summary *)



(** C4, as the code has it.  Every (State, District) pair of the records
    has exactly one row in the summary and the summary has no other row.
    A summed field is the plain sum over all records of the group, a NULL
    counting as zero, as soon as one record of the group has a value for
    it; when every record of the group has NULL there, the field is NULL
    (not zero). *)
Theorem district_sums :
  forall df : list record,
    List.NoDup (map summary_key (summarize df))
    /\ (forall k, In k (map summary_key (summarize df))
                  <-> In k (map key_of df))
    /\ (forall s, In s (summarize df) ->
          let rows := group_rows (summary_key s) df in
          ((exists r, In r rows /\ TotalHouseholds r <> None) ->
           Summary.TotalHouseholds s
           = Some (sum_nulls_as_zero (map TotalHouseholds rows)))
          /\ ((forall r, In r rows -> TotalHouseholds r = None) ->
              Summary.TotalHouseholds s = None)
          /\ ((exists r, In r rows /\ CleanWaterHH r <> None) ->
              Summary.CleanWaterHH s
              = Some (sum_nulls_as_zero (map CleanWaterHH rows)))
          /\ ((forall r, In r rows -> CleanWaterHH r = None) ->
              Summary.CleanWaterHH s = None)).
Proof.
  intros df.
  split.
  { rewrite summary_keys. apply (NoDup_fold df []). constructor. }
  split.
  { intros k. rewrite summary_keys. unfold groupBy_agg.
    rewrite keys_fold. cbn [map In]. intuition. }
  intros s Hin rows.
  destruct (summarize_spec df s Hin) as [_ [Ht [Hc _]]].
  fold rows in Ht, Hc. rewrite Ht, Hc, !sql_sum_closed.
  repeat split.
  - intros H. rewrite (forallb_is_null_false _ _ H). reflexivity.
  - intros H. rewrite (forallb_is_null_true _ _ H). reflexivity.
  - intros H. rewrite (forallb_is_null_false _ _ H). reflexivity.
  - intros H. rewrite (forallb_is_null_true _ _ H). reflexivity.
Qed.

Lemma district_sums_witness :
  let df := map sample_transform two_villages in
  In sagar_summary (summarize df)
  /\ (exists r, In r (group_rows (summary_key sagar_summary) df)
                /\ TotalHouseholds r <> None)
  /\ Summary.TotalHouseholds sagar_summary
     = Some (sum_nulls_as_zero
               (map TotalHouseholds
                    (group_rows (summary_key sagar_summary) df))).
Proof.
  intros df.
  assert (Hin : In sagar_summary (summarize df)) by (left; reflexivity).
  assert (Hex : exists r, In r (group_rows (summary_key sagar_summary) df)
                          /\ TotalHouseholds r <> None).
  { exists (sample_transform
              (village "A" "Sagar" (IntCell 100) (IntCell 80))).
    split; [left; reflexivity|discriminate]. }
  split; [exact Hin|]. split; [exact Hex|].
  destruct (district_sums df) as [_ [_ H]].
  destruct (H sagar_summary Hin) as [Hsum _].
  apply Hsum. exact Hex.
Defined.

(** C4 as stated fails: the only record of the district has a NULL
    [TotalHouseholds]; with NULL counting as zero the sum would be 0, but
    the summary row holds NULL. *)
Lemma district_sums_null_counterexample :
  let df := map sample_transform unknown_total in
  map TotalHouseholds df = [None]
  /\ sum_nulls_as_zero (map TotalHouseholds df) = 0
  /\ summarize df
     = [ {| Summary.State := Some "MP"%string;
            Summary.District := Some "Damoh"%string;
            Summary.TotalHouseholds := None;
            Summary.CleanWaterHH := Some 5;
            Summary.PercentAccess := Some 0%Q |} ]
  /\ ~ (exists s, In s (summarize df)
                  /\ Summary.TotalHouseholds s
                     = Some (sum_nulls_as_zero
                               (map TotalHouseholds
                                    (group_rows (summary_key s) df)))).
Proof.
  intros df.
  split; [reflexivity|]. split; [reflexivity|]. split; [reflexivity|].
  intros [s [[Hs|[]] Ht]]. subst s. discriminate Ht.
Qed.

(** ** GeoJSON export *)

Lemma features_loop_app (rows : list record) :
  forall acc,
    (forall r, In r rows -> PercentAccess r <> None) ->
    features_loop rows acc
    = inr (acc ++ map (fun r =>
                         feature_dict r
                           (float_round (default 0%Q (PercentAccess r)) 2))
                      rows).
Proof.
  induction rows as [|r rows IH]; intros acc H.
  - cbn [features_loop map]. rewrite app_nil_r. reflexivity.
  - cbn [features_loop map]. unfold feature.
    destruct (PercentAccess r) as [p|] eqn:E.
    + cbn [py_round]. rewrite IH.
      * rewrite <- app_assoc. reflexivity.
      * intros r' Hr'. apply H. right. exact Hr'.
    + exfalso. apply (H r); [left; reflexivity|exact E].
Qed.

(** On rows that all have a percentage the collection has one feature
    per row, in row order, with longitude before latitude and the
    percentage rounded to 2 decimals. *)
Lemma features_without_nulls (rows : list record) :
  (forall r, In r rows -> PercentAccess r <> None) ->
  features_loop rows []
  = inr (map (fun r =>
                feature_dict r
                  (float_round (default 0%Q (PercentAccess r)) 2))
             rows).
Proof. intros H. rewrite (features_loop_app rows [] H). reflexivity. Qed.

Lemma features_loop_raises (rows : list record) :
  forall acc r,
    In r rows -> PercentAccess r = None ->
    features_loop rows acc = inl TypeError.
Proof.
  induction rows as [|r0 rows IH]; intros acc r Hin Hnull; [destruct Hin|].
  cbn [features_loop]. unfold feature.
  destruct (PercentAccess r0) as [p|] eqn:E.
  - cbn [py_round]. destruct Hin as [E0|Hin].
    + subst r0. rewrite Hnull in E. discriminate E.
    + apply (IH _ r Hin Hnull).
  - reflexivity.
Qed.

(** ** The run as a whole *)

Section Run.

Variable cell : Type.
Variable cast_int : cell -> option Z.
Variable cast_double : cell -> option double.
Variable read_csv : string -> option (list (csv_row cell)).

(** The three ways [main] can end. *)
Lemma main_cases (input_path output_dir : string) (w : world) :
  main cast_int cast_double read_csv input_path output_dir w
  = match read_csv input_path with
    | None => (w, inl AnalysisException)
    | Some csv =>
        let df := map (transform cast_int cast_double) csv in
        match features_loop df [] with
        | inl e =>
            (mkWorld (<[output_dir +:+ "/district_summary"
                        := CsvDir (summarize df)]> (fs w))
                     (stdout w),
             inl e)
        | inr features =>
            (mkWorld (written output_dir df features (fs w))
                     (stdout w ++ report output_dir),
             inr tt)
        end
    end.
Proof.
  unfold main, load, bind.
  destruct (read_csv input_path) as [csv|]; [|reflexivity].
  cbn [ret write lift fs stdout].
  destruct (features_loop (map (transform cast_int cast_double) csv) [])
    as [e|features]; [reflexivity|].
  unfold print, written, report. cbn [fs stdout].
  repeat rewrite <- app_assoc. reflexivity.
Qed.

End Run.


Lemma append_cancel_l (s a b : string) : s +:+ a = s +:+ b -> a = b.
Proof.
  induction s as [|c s IH]; intros H; [exact H|].
  cbn in H. injection H as H. apply IH. exact H.
Qed.

Lemma path_join_inj (a x y : string) :
  path_join a x = path_join a y -> x = y.
Proof.
  unfold path_join. destruct a as [|c a]; [auto|].
  destruct (ends_with_slash (String c a)); intros H.
  - exact (append_cancel_l _ _ _ H).
  - apply append_cancel_l in H. cbn in H. injection H as H. exact H.
Qed.

Lemma summary_path_fresh (a x : string) :
  x <> "district_summary"%string ->
  "/district_summary"%string <> x ->
  a +:+ "/district_summary" <> path_join a x.
Proof.
  intros H1 H2 E. unfold path_join in E. destruct a as [|c a].
  - cbn in E. apply H2. exact E.
  - destruct (ends_with_slash (String c a)).
    + apply append_cancel_l in E. apply H2. exact E.
    + apply append_cancel_l in E. cbn in E. injection E as E.
      apply H1. symmetry. exact E.
Qed.



(** ** The two roundings

    Both give an integer within one half of their argument; they differ
    on the ties only. *)

Lemma round_half_up_near (y : Q) :
  (y - (1 # 2) <= inject_Z (round_half_up y)
   /\ inject_Z (round_half_up y) <= y + (1 # 2))%Q.
Proof.
  unfold round_half_up. destruct (Qle_bool 0 y).
  - pose proof (Qfloor_le (y + (1 # 2))) as Hlo.
    pose proof (Qlt_floor (y + (1 # 2))) as Hhi.
    rewrite inject_Z_plus in Hhi. change (inject_Z 1) with 1%Q in Hhi.
    split; lra.
  - pose proof (Qfloor_le (- y + (1 # 2))) as Hlo.
    pose proof (Qlt_floor (- y + (1 # 2))) as Hhi.
    rewrite inject_Z_plus in Hhi. change (inject_Z 1) with 1%Q in Hhi.
    rewrite inject_Z_opp. split; lra.
Qed.

Lemma round_half_even_near (y : Q) :
  (y - (1 # 2) <= inject_Z (round_half_even y)
   /\ inject_Z (round_half_even y) <= y + (1 # 2))%Q.
Proof.
  unfold round_half_even.
  pose proof (Qfloor_le y) as Hlo.
  pose proof (Qlt_floor y) as Hhi.
  rewrite inject_Z_plus in Hhi. change (inject_Z 1) with 1%Q in Hhi.
  destruct (y - inject_Z (Qfloor y) ?= 1 # 2)%Q eqn:E.
  - apply Qeq_alt in E. destruct (Z.even (Qfloor y)).
    + split; lra.
    + rewrite inject_Z_plus. change (inject_Z 1) with 1%Q. split; lra.
  - apply Qlt_alt in E. split; lra.
  - apply Qgt_alt in E. rewrite inject_Z_plus.
    change (inject_Z 1) with 1%Q. split; lra.
Qed.


(** At 2 decimals both stay within half a hundredth. *)
Lemma sround_near (x : double) :
  (x - (1 # 200) <= sround x 2 /\ sround x 2 <= x + (1 # 200))%Q.
Proof.
  unfold sround. rewrite Qred_correct. change (pow10 2) with 100%Q.
  destruct (round_half_up_near (x * 100)) as [Hlo Hhi].
  split; apply Qmult_le_r with (z := 100%Q); try reflexivity; field_simplify;
    lra.
Qed.

Lemma float_round_near (x : double) :
  (x - (1 # 200) <= float_round x 2 /\ float_round x 2 <= x + (1 # 200))%Q.
Proof.
  unfold float_round. rewrite Qred_correct. change (pow10 2) with 100%Q.
  destruct (round_half_even_near (x * 100)) as [Hlo Hhi].
  split; apply Qmult_le_r with (z := 100%Q); try reflexivity; field_simplify;
    lra.
Qed.





(** ** Export and exit status *)

(** C5, at an input on which it fails.  The second village of the file
    has no clean-water count, so its percentage is NULL; [round] raises
    on it, the run ends with status 1 after the summary has been written,
    and no points.geojson exists: neither village appears as a feature. *)
Theorem geojson_lost_on_missing_count :
  let df := map sample_transform one_count_missing in
  let run := sample_script one_count_missing regular_argv empty_world in
  map PercentAccess df = [Some 80%Q; None]
  /\ features_loop df [] = inl TypeError
  /\ snd run = 1
  /\ fs (fst run) !! "out/points.geojson"%string = None
  /\ fs (fst run) !! "out/district_summary"%string
     = Some (CsvDir (summarize df)).
Proof. vm_compute. repeat split; reflexivity. Qed.

(** C6, where it breaks.  A count that fails coercion becomes NULL and
    the engine's part of the run goes through: the record has a NULL
    [CleanWaterHH] and, its total being positive, a NULL [PercentAccess],
    and the summary is written.  The export then raises [TypeError] on
    that record, and the run ends there: no points.geojson, no page
    files, no completion message. *)
Theorem null_percent_aborts_run :
  forall (cell : Type) (cast_int : cell -> option Z)
         (cast_double : cell -> option double)
         (read_csv : string -> option (list (csv_row cell)))
         (input_path output_dir : string) (w : world)
         (csv : list (csv_row cell)) (r : csv_row cell) (t : Z),
    read_csv input_path = Some csv ->
    In r csv ->
    cast_int (total_households r) = Some t ->
    0 < t ->
    cast_int (households_with_clean_water r) = None ->
    let df := map (transform cast_int cast_double) csv in
    CleanWaterHH (transform cast_int cast_double r) = None
    /\ PercentAccess (transform cast_int cast_double r) = None
    /\ main cast_int cast_double read_csv input_path output_dir w
       = (mkWorld (<[output_dir +:+ "/district_summary"
                     := CsvDir (summarize df)]> (fs w))
                  (stdout w),
          inl TypeError).
Proof.
  intros cell cast_int cast_double read_csv input_path output_dir w csv r t
         Hread Hin Htotal Hpos Hclean df.
  assert (Hpct : PercentAccess (transform cast_int cast_double r) = None).
  { cbn [transform PercentAccess]. rewrite Htotal, Hclean.
    apply PercentAccess_col_null_clean. exact Hpos. }
  split; [exact Hclean|]. split; [exact Hpct|].
  rewrite main_cases, Hread. cbn zeta. fold df.
  rewrite (features_loop_raises df [] (transform cast_int cast_double r)).
  - reflexivity.
  - unfold df. apply in_map. exact Hin.
  - exact Hpct.
Qed.

Lemma null_percent_aborts_run_witness :
  one_file "villages.csv" one_count_missing "villages.csv"%string
  = Some one_count_missing
  /\ In missing_clean one_count_missing
  /\ sample_cast_int (total_households missing_clean) = Some 50
  /\ 0 < 50
  /\ sample_cast_int (households_with_clean_water missing_clean) = None
  /\ main sample_cast_int sample_cast_double
          (one_file "villages.csv" one_count_missing)
          "villages.csv" "out" empty_world
     = (mkWorld (<["out/district_summary"%string
                   := CsvDir (summarize
                                (map sample_transform one_count_missing))]> ∅)
                [],
        inl TypeError).
Proof.
  assert (Hin : In missing_clean one_count_missing)
    by (right; left; reflexivity).
  split; [reflexivity|]. split; [exact Hin|]. split; [reflexivity|].
  split; [lia|]. split; [reflexivity|].
  apply (null_percent_aborts_run sample_cell sample_cast_int
           sample_cast_double (one_file "villages.csv" one_count_missing)
           "villages.csv" "out" empty_world one_count_missing missing_clean
           50);
    [reflexivity | exact Hin | reflexivity | lia | reflexivity].
Defined.



(** C8.  The script wants exactly two arguments after its own name.  With
    any other number it prints the usage line and ends with status 1; no
    file is read or written.  With two, it runs [main] on them. *)
Theorem wrong_argument_count :
  forall (cell : Type) (cast_int : cell -> option Z)
         (cast_double : cell -> option double)
         (read_csv : string -> option (list (csv_row cell)))
         (argv : list string) (w : world),
    (length argv <> 3%nat ->
     script cast_int cast_double read_csv argv w
     = (mkWorld (fs w) (stdout w ++ [usage]), 1))
    /\ (forall name input_path output_dir,
          argv = [name; input_path; output_dir] ->
          script cast_int cast_double read_csv argv w
          = match main cast_int cast_double read_csv
                       input_path output_dir w with
            | (w', inr _) => (w', 0)
            | (w', inl _) => (w', 1)
            end).
Proof.
  intros cell cast_int cast_double read_csv argv w. split.
  - intros Hlen. unfold script.
    assert (E : (length argv =? 3)%nat = false)
      by (apply Nat.eqb_neq; exact Hlen).
    rewrite E. reflexivity.
  - intros name input_path output_dir E. subst argv. reflexivity.
Qed.

Lemma wrong_argument_count_witness :
  length ["combiner.py"; "villages.csv"]%string <> 3%nat
  /\ sample_script two_villages ["combiner.py"; "villages.csv"]%string
                   empty_world
     = (mkWorld ∅ [usage], 1).
Proof.
  split; [discriminate|].
  destruct (wrong_argument_count sample_cell sample_cast_int
              sample_cast_double (one_file "villages.csv" two_villages)
              ["combiner.py"; "villages.csv"]%string empty_world)
    as [H _].
  apply H. discriminate.
Defined.

(** ** Binary64

    The percentages used in the examples above, computed on machine
    doubles: each is exact, so the rational model and the doubles agree
    on them. *)

Example binary64_one_in_800 :
  binary64_percent 1 800 = 0.125%float.
Proof. reflexivity. Qed.

Example binary64_two_villages :
  binary64_percent 80 100 = 80%float
  /\ binary64_percent 10 50 = 20%float
  /\ binary64_percent 90 150 = 60%float.
Proof. repeat split; reflexivity. Qed.

Example binary64_thresholds :
  binary64_percent 3 4 = 75%float /\ binary64_percent 2 5 = 40%float.
Proof. split; reflexivity. Qed.

(** * Further properties of the pipeline *)

(** ** Percentages and levels in terms of the two counts *)

Lemma ratio_times_total (t c : Z) :
  0 < t ->
  (inject_Z c / inject_Z t * 100 * inject_Z t == inject_Z (100 * c))%Q.
Proof.
  intros Ht. rewrite inject_Z_mult. change (inject_Z 100) with 100%Q.
  field. intros E. apply (inject_Z_injective t 0) in E. lia.
Qed.

Lemma inject_Z_pos (t : Z) : 0 < t -> (0 < inject_Z t)%Q.
Proof. intros Ht. rewrite (Zlt_Qlt 0 t) in Ht. exact Ht. Qed.

Lemma ratio_le_iff (t c k : Z) :
  0 < t ->
  (inject_Z c / inject_Z t * 100 <= inject_Z k)%Q <-> 100 * c <= k * t.
Proof.
  intros Ht.
  rewrite <- (Qmult_le_r _ _ (inject_Z t) (inject_Z_pos t Ht)).
  rewrite (ratio_times_total t c Ht), <- inject_Z_mult, <- Zle_Qle.
  reflexivity.
Qed.

Lemma ratio_ge_iff (t c k : Z) :
  0 < t ->
  (inject_Z k <= inject_Z c / inject_Z t * 100)%Q <-> k * t <= 100 * c.
Proof.
  intros Ht.
  rewrite <- (Qmult_le_r _ _ (inject_Z t) (inject_Z_pos t Ht)).
  rewrite (ratio_times_total t c Ht), <- inject_Z_mult, <- Zle_Qle.
  reflexivity.
Qed.

(** X1.  With a positive total the percentage is at most 100 exactly when
    the clean count does not exceed the total, and at least 0 exactly when
    the clean count is not negative. *)
Theorem percent_within_bounds_iff :
  forall (cell : Type) (cast_int : cell -> option Z)
         (cast_double : cell -> option double) (r : csv_row cell) (t c : Z),
    let rec := transform cast_int cast_double r in
    TotalHouseholds rec = Some t -> 0 < t -> CleanWaterHH rec = Some c ->
    exists p, PercentAccess rec = Some p
              /\ ((p <= 100)%Q <-> c <= t)
              /\ ((0 <= p)%Q <-> 0 <= c).
Proof.
  intros cell cast_int cast_double r t c rec Ht Hpos Hc.
  change (PercentAccess rec)
    with (PercentAccess_col (TotalHouseholds rec) (CleanWaterHH rec)).
  rewrite Ht, Hc, (PercentAccess_col_ratio t c Hpos).
  eexists. split; [reflexivity|].
  rewrite (ratio_value t c).
  split.
  - change 100%Q with (inject_Z 100). rewrite (ratio_le_iff t c 100 Hpos).
    lia.
  - change 0%Q with (inject_Z 0). rewrite (ratio_ge_iff t c 0 Hpos). lia.
Qed.

Lemma percent_within_bounds_iff_witness :
  let rec := sample_transform
               (village "A" "Sagar" (IntCell 100) (IntCell 80)) in
  TotalHouseholds rec = Some 100 /\ 0 < 100 /\ CleanWaterHH rec = Some 80
  /\ exists p, PercentAccess rec = Some p
               /\ ((p <= 100)%Q <-> 80 <= 100)
               /\ ((0 <= p)%Q <-> 0 <= 80).
Proof.
  intros rec.
  split; [reflexivity|]. split; [lia|]. split; [reflexivity|].
  apply (percent_within_bounds_iff sample_cell sample_cast_int
           sample_cast_double
           (village "A" "Sagar" (IntCell 100) (IntCell 80)) 100 80);
    [reflexivity | lia | reflexivity].
Defined.

(** X2.  With a positive total and a clean count, the level is read off
    the two counts: "High" when at least three quarters of the households
    have clean water, "Medium" when at least two fifths do, "Low"
    otherwise. *)
Theorem access_level_by_counts :
  forall (cell : Type) (cast_int : cell -> option Z)
         (cast_double : cell -> option double) (r : csv_row cell) (t c : Z),
    let rec := transform cast_int cast_double r in
    TotalHouseholds rec = Some t -> 0 < t -> CleanWaterHH rec = Some c ->
    AccessLevel rec
    = Some (if 3 * t <=? 4 * c then "High"%string
            else if 2 * t <=? 5 * c then "Medium"%string
            else "Low"%string).
Proof.
  intros cell cast_int cast_double r t c rec Ht Hpos Hc.
  change (AccessLevel rec)
    with (AccessLevel_col
            (PercentAccess_col (TotalHouseholds rec) (CleanWaterHH rec))).
  rewrite Ht, Hc, (PercentAccess_col_ratio t c Hpos), AccessLevel_col_cases.
  set (p := dmul (ddiv (of_int c) (of_int t)) (of_int 100)).
  assert (H75 : dge p 75%Q = (3 * t <=? 4 * c)).
  { destruct (3 * t <=? 4 * c) eqn:E.
    - apply dge_true. unfold p. rewrite (ratio_value t c).
      change 75%Q with (inject_Z 75). apply (ratio_ge_iff t c 75 Hpos).
      apply Z.leb_le in E. lia.
    - apply dge_false. apply Qnot_le_lt. unfold p.
      rewrite (ratio_value t c). change 75%Q with (inject_Z 75).
      rewrite (ratio_ge_iff t c 75 Hpos). apply Z.leb_gt in E. lia. }
  assert (H40 : dge p 40%Q = (2 * t <=? 5 * c)).
  { destruct (2 * t <=? 5 * c) eqn:E.
    - apply dge_true. unfold p. rewrite (ratio_value t c).
      change 40%Q with (inject_Z 40). apply (ratio_ge_iff t c 40 Hpos).
      apply Z.leb_le in E. lia.
    - apply dge_false. apply Qnot_le_lt. unfold p.
      rewrite (ratio_value t c). change 40%Q with (inject_Z 40).
      rewrite (ratio_ge_iff t c 40 Hpos). apply Z.leb_gt in E. lia. }
  rewrite H75, H40.
  destruct (3 * t <=? 4 * c); [reflexivity|].
  destruct (2 * t <=? 5 * c); reflexivity.
Qed.

Lemma access_level_by_counts_witness :
  let rec := sample_transform near_threshold in
  TotalHouseholds rec = Some 25000 /\ 0 < 25000
  /\ CleanWaterHH rec = Some 18749
  /\ AccessLevel rec = Some "Medium"%string.
Proof.
  intros rec.
  split; [reflexivity|]. split; [lia|]. split; [reflexivity|].
  apply (access_level_by_counts sample_cell sample_cast_int
           sample_cast_double near_threshold 25000 18749);
    [reflexivity | lia | reflexivity].
Defined.

(** ** The exported percentage against the exported level *)

Lemma float_round_ge (p : Q) (k : Z) :
  (inject_Z k <= p)%Q -> (inject_Z k <= float_round p 2)%Q.
Proof.
  intros Hp. unfold float_round. rewrite Qred_correct.
  change (pow10 2) with 100%Q.
  destruct (round_half_even_near (p * 100)) as [Hlo _].
  set (n := round_half_even (p * 100)) in *.
  assert (Hn : (inject_Z (k * 100) - (1 # 2) <= inject_Z n)%Q).
  { rewrite inject_Z_mult. change (inject_Z 100) with 100%Q. lra. }
  assert (Hz : k * 100 <= n).
  { unfold Qle, Qminus, Qplus, Qopp, inject_Z in Hn. cbn in Hn. lia. }
  apply Qle_shift_div_l; [reflexivity|].
  change 100%Q with (inject_Z 100). rewrite <- inject_Z_mult, <- Zle_Qle.
  exact Hz.
Qed.

Lemma float_round_le (p : Q) (k : Z) :
  (p <= inject_Z k)%Q -> (float_round p 2 <= inject_Z k)%Q.
Proof.
  intros Hp. unfold float_round. rewrite Qred_correct.
  change (pow10 2) with 100%Q.
  destruct (round_half_even_near (p * 100)) as [_ Hhi].
  set (n := round_half_even (p * 100)) in *.
  assert (Hn : (inject_Z n <= inject_Z (k * 100) + (1 # 2))%Q).
  { rewrite inject_Z_mult. change (inject_Z 100) with 100%Q. lra. }
  assert (Hz : n <= k * 100).
  { unfold Qle, Qplus, inject_Z in Hn. cbn in Hn. lia. }
  apply Qle_shift_div_r; [reflexivity|].
  change 100%Q with (inject_Z 100). rewrite <- inject_Z_mult, <- Zle_Qle.
  exact Hz.
Qed.

(** X3.  The level is decided on the unrounded percentage and the GeoJSON
    carries the rounded one, so the two can meet on a threshold but never
    cross it: next to "High" the exported percentage is at least 75, next
    to "Medium" it is between 40 and 75 inclusive, next to "Low" at most
    40.  The bound is reached: 18749 of 25000 households (74.996 percent)
    are exported as 75 with the level "Medium". *)
Theorem exported_percent_against_level :
  (forall (cell : Type) (cast_int : cell -> option Z)
          (cast_double : cell -> option double) (r : csv_row cell)
          (p : double),
      let rec := transform cast_int cast_double r in
      PercentAccess rec = Some p ->
      feature rec = inr (feature_dict rec (float_round p 2))
      /\ (AccessLevel rec = Some "High"%string ->
          (75 <= float_round p 2)%Q)
      /\ (AccessLevel rec = Some "Medium"%string ->
          (40 <= float_round p 2)%Q /\ (float_round p 2 <= 75)%Q)
      /\ (AccessLevel rec = Some "Low"%string ->
          (float_round p 2 <= 40)%Q))
  /\ (let rec := sample_transform near_threshold in
      AccessLevel rec = Some "Medium"%string
      /\ feature rec = inr (feature_dict rec 75%Q)).
Proof.
  split; [|split; reflexivity].
  intros cell cast_int cast_double r p rec Hp.
  split; [unfold feature; rewrite Hp; reflexivity|].
  change (AccessLevel rec) with (AccessLevel_col (PercentAccess rec)).
  rewrite Hp, AccessLevel_col_cases.
  destruct (dge p 75%Q) eqn:E75; [|destruct (dge p 40%Q) eqn:E40].
  - apply dge_true in E75.
    split; [intros _; apply (float_round_ge p 75 E75)|].
    split; intros H; discriminate H.
  - apply dge_false in E75. apply dge_true in E40.
    split; [intros H; discriminate H|].
    split; [|intros H; discriminate H].
    intros _. split.
    + apply (float_round_ge p 40 E40).
    + apply (float_round_le p 75). apply Qlt_le_weak. exact E75.
  - apply dge_false in E40.
    split; [intros H; discriminate H|].
    split; [intros H; discriminate H|].
    intros _. apply (float_round_le p 40). apply Qlt_le_weak. exact E40.
Qed.

Lemma exported_percent_against_level_witness :
  let rec := sample_transform
               (village "A" "Sagar" (IntCell 100) (IntCell 80)) in
  PercentAccess rec = Some 80%Q
  /\ AccessLevel rec = Some "High"%string
  /\ (75 <= float_round 80 2)%Q.
Proof.
  intros rec.
  split; [reflexivity|]. split; [reflexivity|].
  destruct exported_percent_against_level as [H _].
  destruct (H sample_cell sample_cast_int sample_cast_double
              (village "A" "Sagar" (IntCell 100) (IntCell 80)) 80%Q
              eq_refl) as [_ [Hhigh _]].
  apply Hhigh. reflexivity.
Defined.

(** ** The summary against the records *)

Lemma summary_PercentAccess_rounds (total clean : option Z) :
  summary_PercentAccess total clean
  = sql_round (PercentAccess_col total clean) 2.
Proof.
  unfold summary_PercentAccess, PercentAccess_col, when_. cbn [otherwise].
  destruct (sql_gt total (lit 0)) as [[|]|]; reflexivity.
Qed.

Lemma sql_sum_single (v : option Z) : sql_sum [v] = v.
Proof. destruct v; reflexivity. Qed.

(** X4.  For a district made of a single village the summary's percentage
    is the village's own percentage put through the engine's [round] at
    2 decimals, NULL staying NULL. *)
Theorem single_village_district :
  forall (cell : Type) (cast_int : cell -> option Z)
         (cast_double : cell -> option double) (csv : list (csv_row cell))
         (s : Summary.row) (r : record),
    let df := map (transform cast_int cast_double) csv in
    In s (summarize df) ->
    group_rows (summary_key s) df = [r] ->
    Summary.TotalHouseholds s = TotalHouseholds r
    /\ Summary.CleanWaterHH s = CleanWaterHH r
    /\ Summary.PercentAccess s = sql_round (PercentAccess r) 2.
Proof.
  intros cell cast_int cast_double csv s r df Hin Hrows.
  destruct (summarize_spec df s Hin) as [_ [Ht [Hc Hp]]].
  rewrite Hrows in Ht, Hc, Hp. cbn [map] in Ht, Hc, Hp.
  rewrite sql_sum_single in Ht. rewrite sql_sum_single in Hc.
  rewrite !sql_sum_single in Hp.
  split; [exact Ht|]. split; [exact Hc|].
  rewrite Hp, summary_PercentAccess_rounds.
  assert (Hr : In r df).
  { assert (H : In r (group_rows (summary_key s) df))
      by (rewrite Hrows; left; reflexivity).
    unfold group_rows in H. apply filter_In in H. exact (proj1 H). }
  unfold df in Hr. apply in_map_iff in Hr. destruct Hr as [r0 [E _]].
  subst r. reflexivity.
Qed.

Lemma single_village_district_witness :
  let df := map sample_transform [one_in_800] in
  let s := {| Summary.State := Some "MP"%string;
              Summary.District := Some "Panna"%string;
              Summary.TotalHouseholds := Some 800;
              Summary.CleanWaterHH := Some 1;
              Summary.PercentAccess := Some (13 # 100)%Q |} in
  In s (summarize df)
  /\ group_rows (summary_key s) df = [sample_transform one_in_800]
  /\ Summary.PercentAccess s
     = sql_round (PercentAccess (sample_transform one_in_800)) 2.
Proof.
  intros df s.
  assert (Hin : In s (summarize df)) by (left; reflexivity).
  assert (Hrows : group_rows (summary_key s) df
                  = [sample_transform one_in_800]) by reflexivity.
  split; [exact Hin|]. split; [exact Hrows|].
  apply (single_village_district sample_cell sample_cast_int
           sample_cast_double [one_in_800] s
           (sample_transform one_in_800) Hin Hrows).
Defined.

Lemma null_as_zero_sum_step (acc v : option Z) :
  null_as_zero (sum_step acc v) = null_as_zero acc + null_as_zero v.
Proof. destruct acc, v; cbn [sum_step null_as_zero]; lia. Qed.

Lemma add_to_group_counts (k : group_key) (t c : option Z) (gs : groups) :
  sum_nulls_as_zero (map (fun g => fst (snd g)) (add_to_group k t c gs))
  = sum_nulls_as_zero (map (fun g => fst (snd g)) gs) + null_as_zero t
  /\ sum_nulls_as_zero (map (fun g => snd (snd g)) (add_to_group k t c gs))
     = sum_nulls_as_zero (map (fun g => snd (snd g)) gs) + null_as_zero c.
Proof.
  induction gs as [|[k0 [st sc]] gs [IHt IHc]].
  - cbn [add_to_group map fst snd]. rewrite !sum_nulls_as_zero_cons.
    rewrite !null_as_zero_sum_step. cbn [null_as_zero].
    change (sum_nulls_as_zero []) with 0. lia.
  - cbn [add_to_group]. destruct (decide (k = k0)).
    + cbn [map fst snd]. rewrite !sum_nulls_as_zero_cons.
      rewrite !null_as_zero_sum_step. lia.
    + cbn [map fst snd]. rewrite !sum_nulls_as_zero_cons.
      cbn [map fst snd] in IHt, IHc. rewrite IHt, IHc. lia.
Qed.

Lemma fold_agg_counts (df : list record) :
  forall gs,
    sum_nulls_as_zero (map (fun g => fst (snd g)) (fold_left agg_step df gs))
    = sum_nulls_as_zero (map (fun g => fst (snd g)) gs)
      + sum_nulls_as_zero (map TotalHouseholds df)
    /\ sum_nulls_as_zero
         (map (fun g => snd (snd g)) (fold_left agg_step df gs))
       = sum_nulls_as_zero (map (fun g => snd (snd g)) gs)
         + sum_nulls_as_zero (map CleanWaterHH df).
Proof.
  induction df as [|r df IH]; intros gs.
  - cbn [fold_left map]. change (sum_nulls_as_zero []) with 0. lia.
  - cbn [fold_left map]. destruct (IH (agg_step gs r)) as [Ht Hc].
    rewrite Ht, Hc. unfold agg_step.
    destruct (add_to_group_counts (key_of r) (TotalHouseholds r)
                (CleanWaterHH r) gs) as [Et Ec].
    rewrite Et, Ec, !sum_nulls_as_zero_cons. lia.
Qed.

(** X5.  Grouping conserves the counts: added over all rows of the
    summary, the household totals give the total over all records, and so
    do the clean-water counts (a NULL counting as zero on both sides). *)
Theorem summary_conserves_counts :
  forall df : list record,
    sum_nulls_as_zero (map Summary.TotalHouseholds (summarize df))
    = sum_nulls_as_zero (map TotalHouseholds df)
    /\ sum_nulls_as_zero (map Summary.CleanWaterHH (summarize df))
       = sum_nulls_as_zero (map CleanWaterHH df).
Proof.
  intros df. unfold summarize. rewrite !map_map.
  assert (Et : map (fun g => Summary.TotalHouseholds (summary_row g))
                   (groupBy_agg df)
               = map (fun g => fst (snd g)) (groupBy_agg df)).
  { apply map_ext. intros [k [t c]]. reflexivity. }
  assert (Ec : map (fun g => Summary.CleanWaterHH (summary_row g))
                   (groupBy_agg df)
               = map (fun g => snd (snd g)) (groupBy_agg df)).
  { apply map_ext. intros [k [t c]]. reflexivity. }
  rewrite Et, Ec. unfold groupBy_agg.
  destruct (fold_agg_counts df []) as [Ht Hc]. rewrite Ht, Hc.
  cbn [map]. change (sum_nulls_as_zero []) with 0. lia.
Qed.

Lemma length_add_to_group (k : group_key) (t c : option Z) (gs : groups) :
  (length (add_to_group k t c gs) <= S (length gs))%nat.
Proof.
  induction gs as [|[k0 [st sc]] gs IH]; [cbn; lia|].
  cbn [add_to_group]. destruct (decide (k = k0)); cbn [length]; lia.
Qed.

Lemma length_fold_agg (df : list record) :
  forall gs,
    (length (fold_left agg_step df gs) <= length gs + length df)%nat.
Proof.
  induction df as [|r df IH]; intros gs; cbn [fold_left length]; [lia|].
  specialize (IH (agg_step gs r)).
  assert (H : (length (agg_step gs r) <= S (length gs))%nat)
    by apply length_add_to_group.
  lia.
Qed.

(** X6.  The summary has at most one row per record, and no row at all
    exactly when the table is empty. *)
Theorem summary_size :
  forall df : list record,
    (length (summarize df) <= length df)%nat
    /\ (summarize df = [] <-> df = []).
Proof.
  intros df. split.
  { unfold summarize, groupBy_agg. rewrite length_map.
    pose proof (length_fold_agg df []) as H. cbn [length] in H. lia. }
  split.
  - intros E. destruct df as [|r df]; [reflexivity|].
    assert (Hk : In (key_of r) (map summary_key (summarize (r :: df)))).
    { rewrite summary_keys. unfold groupBy_agg.
      apply keys_fold. left. left. reflexivity. }
    rewrite E in Hk. destruct Hk.
  - intros E. subst df. reflexivity.
Qed.

Lemma sround_ge (p : Q) (k : Z) :
  (inject_Z k <= p)%Q -> (inject_Z k <= sround p 2)%Q.
Proof.
  intros Hp. unfold sround. rewrite Qred_correct.
  change (pow10 2) with 100%Q.
  destruct (round_half_up_near (p * 100)) as [Hlo _].
  set (n := round_half_up (p * 100)) in *.
  assert (Hn : (inject_Z (k * 100) - (1 # 2) <= inject_Z n)%Q).
  { rewrite inject_Z_mult. change (inject_Z 100) with 100%Q. lra. }
  assert (Hz : k * 100 <= n).
  { unfold Qle, Qminus, Qplus, Qopp, inject_Z in Hn. cbn in Hn. lia. }
  apply Qle_shift_div_l; [reflexivity|].
  change 100%Q with (inject_Z 100). rewrite <- inject_Z_mult, <- Zle_Qle.
  exact Hz.
Qed.

Lemma sround_le (p : Q) (k : Z) :
  (p <= inject_Z k)%Q -> (sround p 2 <= inject_Z k)%Q.
Proof.
  intros Hp. unfold sround. rewrite Qred_correct.
  change (pow10 2) with 100%Q.
  destruct (round_half_up_near (p * 100)) as [_ Hhi].
  set (n := round_half_up (p * 100)) in *.
  assert (Hn : (inject_Z n <= inject_Z (k * 100) + (1 # 2))%Q).
  { rewrite inject_Z_mult. change (inject_Z 100) with 100%Q. lra. }
  assert (Hz : n <= k * 100).
  { unfold Qle, Qplus, inject_Z in Hn. cbn in Hn. lia. }
  apply Qle_shift_div_r; [reflexivity|].
  change 100%Q with (inject_Z 100). rewrite <- inject_Z_mult, <- Zle_Qle.
  exact Hz.
Qed.

(** A record with both counts, the clean one between 0 and the total. *)
Lemma consistent_sums (rows : list record) :
  (forall r, In r rows ->
             exists t c, TotalHouseholds r = Some t
                         /\ CleanWaterHH r = Some c /\ 0 <= c <= t) ->
  0 <= sum_nulls_as_zero (map CleanWaterHH rows)
       <= sum_nulls_as_zero (map TotalHouseholds rows).
Proof.
  induction rows as [|r rows IH]; intros H.
  - cbn [map]. change (sum_nulls_as_zero []) with 0. lia.
  - cbn [map]. rewrite !sum_nulls_as_zero_cons.
    destruct (H r (or_introl eq_refl)) as [t [c [Ht [Hc Hb]]]].
    rewrite Ht, Hc. cbn [null_as_zero].
    assert (IH' := IH (fun r' Hr' => H r' (or_intror Hr'))). lia.
Qed.

(** X7.  When every record has both counts and its clean count lies
    between 0 and its total, every row of the summary has a percentage,
    and it lies between 0 and 100. *)
Theorem summary_percent_within_bounds :
  forall df : list record,
    (forall r, In r df ->
               exists t c, TotalHouseholds r = Some t
                           /\ CleanWaterHH r = Some c /\ 0 <= c <= t) ->
    forall s, In s (summarize df) ->
              exists p, Summary.PercentAccess s = Some p
                        /\ (0 <= p)%Q /\ (p <= 100)%Q.
Proof.
  intros df Hdf s Hin.
  destruct (summarize_spec df s Hin) as [Hne [_ [_ Hp]]].
  set (rows := group_rows (summary_key s) df) in *.
  assert (Hrows : forall r, In r rows ->
                            exists t c, TotalHouseholds r = Some t
                                        /\ CleanWaterHH r = Some c
                                        /\ 0 <= c <= t).
  { intros r Hr. apply Hdf. unfold rows, group_rows in Hr.
    apply filter_In in Hr. exact (proj1 Hr). }
  pose proof (consistent_sums rows Hrows) as Hsums.
  destruct rows as [|r0 rows'] eqn:Erows; [contradiction Hne; reflexivity|].
  destruct (Hrows r0 (or_introl eq_refl)) as [t0 [c0 [Ht0 [Hc0 _]]]].
  assert (HT : sql_sum (map TotalHouseholds (r0 :: rows'))
               = Some (sum_nulls_as_zero
                         (map TotalHouseholds (r0 :: rows')))).
  { rewrite sql_sum_closed, forallb_is_null_false; [reflexivity|].
    exists r0. split; [left; reflexivity|]. rewrite Ht0. discriminate. }
  assert (HC : sql_sum (map CleanWaterHH (r0 :: rows'))
               = Some (sum_nulls_as_zero (map CleanWaterHH (r0 :: rows')))).
  { rewrite sql_sum_closed, forallb_is_null_false; [reflexivity|].
    exists r0. split; [left; reflexivity|]. rewrite Hc0. discriminate. }
  rewrite HT, HC in Hp.
  set (T := sum_nulls_as_zero (map TotalHouseholds (r0 :: rows'))) in *.
  set (C := sum_nulls_as_zero (map CleanWaterHH (r0 :: rows'))) in *.
  destruct (Z_lt_le_dec 0 T) as [Hpos|Hzero].
  - rewrite (summary_PercentAccess_ratio T C Hpos) in Hp.
    eexists. split; [exact Hp|].
    assert (Hx : (100 * inject_Z C / inject_Z T
                  == inject_Z C / inject_Z T * 100)%Q)
      by (unfold Qdiv; ring).
    split.
    + change 0%Q with (inject_Z 0). apply sround_ge. rewrite Hx.
      apply (ratio_ge_iff T C 0 Hpos). lia.
    + change 100%Q with (inject_Z 100). apply sround_le. rewrite Hx.
      apply (ratio_le_iff T C 100 Hpos). lia.
  - rewrite summary_PercentAccess_otherwise in Hp.
    + exists 0%Q. split; [exact Hp|]. split; discriminate.
    + intros [t [E Ht]]. inversion E. lia.
Qed.

Lemma summary_percent_within_bounds_witness :
  let df := map sample_transform two_villages in
  (forall r, In r df ->
             exists t c, TotalHouseholds r = Some t
                         /\ CleanWaterHH r = Some c /\ 0 <= c <= t)
  /\ In sagar_summary (summarize df)
  /\ exists p, Summary.PercentAccess sagar_summary = Some p
               /\ (0 <= p)%Q /\ (p <= 100)%Q.
Proof.
  intros df.
  assert (Hdf : forall r, In r df ->
                          exists t c, TotalHouseholds r = Some t
                                      /\ CleanWaterHH r = Some c
                                      /\ 0 <= c <= t).
  { intros r [E|[E|[]]]; subst r.
    - exists 100, 80. split; [reflexivity|]. split; [reflexivity|lia].
    - exists 50, 10. split; [reflexivity|]. split; [reflexivity|lia]. }
  assert (Hin : In sagar_summary (summarize df)) by (left; reflexivity).
  split; [exact Hdf|]. split; [exact Hin|].
  exact (summary_percent_within_bounds df Hdf sagar_summary Hin).
Defined.

(** ** The export loop as a whole *)




(** ** Paths and files *)

Lemma output_paths_NoDup (output_dir : string) :
  List.NoDup (output_paths output_dir).
Proof.
  unfold output_paths.
  assert (Hs : forall x : string,
             x <> "district_summary"%string ->
             "/district_summary"%string <> x ->
             output_dir +:+ "/district_summary" <> path_join output_dir x)
    by (intros x; apply summary_path_fresh).
  assert (Hj : forall x y : string,
             x <> y -> path_join output_dir x <> path_join output_dir y).
  { intros x y Hxy E. apply Hxy. exact (path_join_inj _ _ _ E). }
  repeat constructor; cbn [In]; intros H;
    repeat (destruct H as [H|H]);
    try contradiction;
    try (symmetry in H; revert H; apply Hs; discriminate);
    try (revert H; apply Hj; discriminate).
Qed.


Lemma written_pages (output_dir : string) (df : list record)
      (features : list json) (m : gmap string file) :
  written output_dir df features m !! path_join output_dir "index.html"
  = Some (TextFile html_code)
  /\ written output_dir df features m !! path_join output_dir "styles.css"
     = Some (TextFile css_code)
  /\ written output_dir df features m !! path_join output_dir "script.js"
     = Some (TextFile js_code).
Proof.
  unfold written. repeat split.
  - rewrite lookup_insert_ne
      by (intros E; apply path_join_inj in E; discriminate E).
    rewrite lookup_insert_ne
      by (intros E; apply path_join_inj in E; discriminate E).
    apply lookup_insert_eq.
  - rewrite lookup_insert_ne
      by (intros E; apply path_join_inj in E; discriminate E).
    apply lookup_insert_eq.
  - apply lookup_insert_eq.
Qed.

(** X9.  Whatever the output folder is named (empty, or ending in a slash
    or not), the five paths a run writes to are pairwise different: no
    write of a run overwrites another. *)
Theorem output_paths_distinct :
  forall output_dir : string,
    List.NoDup
      [output_dir +:+ "/district_summary";
       path_join output_dir "points.geojson";
       path_join output_dir "index.html";
       path_join output_dir "styles.css";
       path_join output_dir "script.js"]%string.
Proof. intros output_dir. apply output_paths_NoDup. Qed.

(** ** How a run ends and what it leaves *)


Section RunEnds.

Variable cell : Type.
Variable cast_int : cell -> option Z.
Variable cast_double : cell -> option double.
Variable read_csv : string -> option (list (csv_row cell)).



End RunEnds.







(** X13.  A run that ends with status 0 leaves the three page files with
    their fixed texts, the same for every input, and has printed the six
    lines of the completion message, which names the output folder as it
    was given. *)
Theorem complete_run_pages :
  forall (cell : Type) (cast_int : cell -> option Z)
         (cast_double : cell -> option double)
         (read_csv : string -> option (list (csv_row cell)))
         (argv : list string) (w : world),
    let run := script cast_int cast_double read_csv argv w in
    let output_dir := nth 2 argv ""%string in
    snd run = 0 ->
    fs (fst run) !! path_join output_dir "index.html"
    = Some (TextFile html_code)
    /\ fs (fst run) !! path_join output_dir "styles.css"
       = Some (TextFile css_code)
    /\ fs (fst run) !! path_join output_dir "script.js"
       = Some (TextFile js_code)
    /\ stdout (fst run) = stdout w ++ report output_dir.
Proof.
  intros cell cast_int cast_double read_csv argv w run output_dir Hstatus.
  unfold run, script in *.
  destruct (negb (length argv =? 3)%nat).
  { cbn [print snd] in Hstatus. discriminate Hstatus. }
  rewrite main_cases in *.
  destruct (read_csv (nth 1 argv ""%string)) as [csv|];
    [|discriminate Hstatus].
  cbn zeta in *.
  destruct (features_loop (map (transform cast_int cast_double) csv) [])
    as [e|features]; [discriminate Hstatus|].
  cbn [fst fs stdout].
  destruct (written_pages output_dir
              (map (transform cast_int cast_double) csv) features (fs w))
    as [H1 [H2 H3]].
  repeat split; assumption || reflexivity.
Qed.

Lemma complete_run_pages_witness :
  let run := sample_script two_villages regular_argv empty_world in
  snd run = 0
  /\ fs (fst run) !! "out/index.html"%string = Some (TextFile html_code)
  /\ stdout (fst run) = report "out".
Proof.
  intros run.
  assert (Hst : snd run = 0) by reflexivity.
  split; [exact Hst|].
  destruct (complete_run_pages sample_cell sample_cast_int
              sample_cast_double (one_file "villages.csv" two_villages)
              regular_argv empty_world Hst) as [Hhtml [_ [_ Hout]]].
  split; [exact Hhtml|exact Hout].
Defined.

(** The village of X3 on machine doubles: its percentage is not exact
    there, but it lies strictly between 74.995 and 75, so it is below the
    "High" threshold and rounds to 75 at 2 decimals all the same. *)
Example binary64_near_threshold :
  PrimFloat.ltb (binary64_percent 18749 25000) 75%float = true
  /\ PrimFloat.ltb 74.995%float (binary64_percent 18749 25000) = true
  /\ PrimFloat.leb 40%float (binary64_percent 18749 25000) = true.
Proof. repeat split; reflexivity. Qed.
